(** * Graceful restart of the caddy process ([caddy/restart.go])

    A shallow embedding of [Restart] and [isRestart].  The function is a
    straight-line sequence of calls into the operating system and into the
    rest of package [caddy]; it is embedded in a small state monad over the
    process state ([World]) whose computations can fall through, return from
    the function, or panic.  What the operating system and the child process
    answer is taken from a [Host] record; a run yields, next to the final
    world, the list of the calls it made, so that orderings can be stated. *)

From Stdlib Require Import ZArith List String.
From Stdlib.Strings Require Import Byte.
From stdpp Require Import gmap strings list fin_maps.

Local Open Scope Z_scope.
Local Open Scope string_scope.
Local Open Scope list_scope.

(** ** Machine integers *)

(** A file descriptor as Go holds it: a [uintptr], 64 bits wide. *)
Abbreviation fd := Z.

Definition int_add (a b : Z) : Z :=
  (a + b + 2 ^ 63) mod 2 ^ 64 - 2 ^ 63.

Definition uintptr_of_int (z : Z) : Z := z mod 2 ^ 64.

(** ** Data *)

(** The [Input] interface, seen through its two methods. *)
Record Input := {
  Body : list byte;
  Path : string
}.

Record CaddyfileInput := {
  Filepath : string;
  Contents : list byte
}.

(** [CaddyfileInput] implements [Input]: [Body] returns [c.Contents] and
    [Path] returns [c.Filepath]. *)
Definition CaddyfileInput_Input (c : CaddyfileInput) : Input :=
  {| Body := Contents c; Path := Filepath c |}.

Coercion CaddyfileInput_Input : CaddyfileInput >-> Input.

Record caddyfileGob := {
  ListenerFds : gmap string Z;
  Caddyfile : list byte
}.

(** Modelled from the spec: the type [server.Server] is declared outside this
    file.  [Restart] reads a server's [Addr] field and calls its
    [ListenerFd] method; [serving] is the server's serving state, which only
    [Stop] and [Start] change. *)
Record Server := {
  Addr : string;
  listener : fd;
  serving : bool
}.

Definition ListenerFd (s : Server) : fd := listener s.

(** The callees whose error [Restart] can hand back. *)
Inductive Callee :=
| os_Pipe
| syscall_ForkExec
| gob_Encode
| ioutil_ReadAll
| caddy_Stop
| caddy_Start.

(** Go [error] values: [incompleteRestartErr], a variable of package [caddy]
    declared outside this file, or the error a callee reported. *)
Inductive error :=
| incompleteRestartErr
| errorOf (callee : Callee) (text : string).

Record ProcAttr := {
  Env : list string;
  Files : list fd
}.

Inductive Mutex := caddyfileMu | serversMu.

(** ** The calls a run makes *)

Inductive Event :=
| EvLock (m : Mutex)
| EvUnlock (m : Mutex)
| EvLoadCaddyfile
| EvSetenv (key value : string)
| EvPipe (ends : option (fd * fd))
| EvForkExec (argv0 : string) (argv : list string) (attr : ProcAttr) (ok : bool)
| EvEncode (w : fd) (payload : caddyfileGob) (ok : bool)
| EvClose (f : fd)
| EvReadAll (f : fd) (answer : list byte) (ok : bool)
| EvLog (line : string)
| EvStop (ok : bool)
| EvStart (cdyfile : option Input) (ok : bool).

(** ** The process state *)

Record World := {
  GOOS : string;
  Args : list string;
  environment : gmap string string;
  Stdout : fd;
  Stderr : fd;
  open_files : gset Z;
  caddyfile : option Input;
  servers : list Server
}.

Definition set_Args (a : list string) (w : World) : World :=
  {| GOOS := GOOS w; Args := a; environment := environment w;
     Stdout := Stdout w; Stderr := Stderr w; open_files := open_files w;
     caddyfile := caddyfile w; servers := servers w |}.

Definition set_environment (e : gmap string string) (w : World) : World :=
  {| GOOS := GOOS w; Args := Args w; environment := e;
     Stdout := Stdout w; Stderr := Stderr w; open_files := open_files w;
     caddyfile := caddyfile w; servers := servers w |}.

Definition set_open_files (o : gset Z) (w : World) : World :=
  {| GOOS := GOOS w; Args := Args w; environment := environment w;
     Stdout := Stdout w; Stderr := Stderr w; open_files := o;
     caddyfile := caddyfile w; servers := servers w |}.

Definition set_servers (l : list Server) (w : World) : World :=
  {| GOOS := GOOS w; Args := Args w; environment := environment w;
     Stdout := Stdout w; Stderr := Stderr w; open_files := open_files w;
     caddyfile := caddyfile w; servers := l |}.

(** ** What the surroundings answer *)

(** The answers of the operating system and of the child during one call of
    [Restart]: the two [os.Pipe] calls, [syscall.ForkExec], the gob encoder
    writing to the pipe, and [ioutil.ReadAll], which hands back the bytes
    read so far together with an error, if any. *)
Record Host := {
  config_pipe : string + (fd * fd);
  signal_pipe : string + (fd * fd);
  forkexec_error : option string;
  encode_error : option string;
  readall_answer : list byte * option string
}.

(** Modelled from the spec: [Stop] and [Start] are functions of package
    [caddy] declared outside this file.  They act on the server registry:
    each maps the registered servers to the servers left after the call and
    reports an error or none. *)
Record Registry := {
  stop_all : list Server -> option string * list Server;
  start_all : option Input -> list Server -> option string * list Server
}.

(** ** The monad of function bodies *)

Inductive Flow (A : Type) :=
| Continue (a : A)
| Return (err : option error)
| Panic.

Arguments Continue {A} a.
Arguments Return {A} err.
Arguments Panic {A}.

(** The outcome of running a piece of code: how control leaves it, the world
    it leaves behind, and the calls it made, in order. *)
Record Run (A : Type) := {
  flow : Flow A;
  final : World;
  calls : list Event
}.

Arguments flow {A} r.
Arguments final {A} r.
Arguments calls {A} r.

Definition M (A : Type) : Type := World -> Run A.

Definition ret {A} (a : A) : M A :=
  fun w => {| flow := Continue a; final := w; calls := [] |}.

Definition bind {A B} (m : M A) (k : A -> M B) : M B :=
  fun w =>
    match m w with
    | {| flow := Continue a; final := w1; calls := c1 |} =>
        match k a w1 with
        | {| flow := f; final := w2; calls := c2 |} =>
            {| flow := f; final := w2; calls := c1 ++ c2 |}
        end
    | {| flow := Return e; final := w1; calls := c1 |} =>
        {| flow := Return e; final := w1; calls := c1 |}
    | {| flow := Panic; final := w1; calls := c1 |} =>
        {| flow := Panic; final := w1; calls := c1 |}
    end.

Definition return_ {A} (e : option error) : M A :=
  fun w => {| flow := Return e; final := w; calls := [] |}.

Definition panic {A} : M A :=
  fun w => {| flow := Panic; final := w; calls := [] |}.

Definition get {A} (f : World -> A) : M A :=
  fun w => {| flow := Continue (f w); final := w; calls := [] |}.

Definition modify (f : World -> World) : M unit :=
  fun w => {| flow := Continue tt; final := f w; calls := [] |}.

Definition emit (e : Event) : M unit :=
  fun w => {| flow := Continue tt; final := w; calls := [e] |}.

Declare Scope go_scope.
Delimit Scope go_scope with go.

Notation "x <- m ;; k" := (bind m (fun x => k))
  (at level 100, m at next level, right associativity) : go_scope.
Notation "m ;; k" := (bind m (fun _ => k))
  (at level 100, right associativity) : go_scope.

Local Open Scope go_scope.

(** [if err != nil { return err }] *)
Definition return_if_error (err : option error) : M unit :=
  match err with
  | Some e => return_ (Some e)
  | None => ret tt
  end.

(** ** The calls [Restart] makes *)

Definition Lock (m : Mutex) : M unit := emit (EvLock m).
Definition Unlock (m : Mutex) : M unit := emit (EvUnlock m).

Definition load_caddyfile : M (option Input) :=
  emit EvLoadCaddyfile ;; get caddyfile.

Definition os_Setenv (key value : string) : M unit :=
  emit (EvSetenv key value) ;;
  modify (fun w => set_environment (<[key := value]> (environment w)) w).

Definition os_Getenv (key : string) (w : World) : string :=
  default "" (environment w !! key).

Definition os_Environ : M (list string) :=
  get (fun w =>
         (fun kv => String.append (fst kv) (String.append "=" (snd kv)))
           <$> map_to_list (environment w)).

Definition tag (c : Callee) (e : option string) : option error :=
  match e with
  | Some text => Some (errorOf c text)
  | None => None
  end.

(** [err == nil] *)
Definition is_nil {A} (e : option A) : bool :=
  match e with
  | None => true
  | Some _ => false
  end.

(** [os.Pipe]: on failure both files are nil (here 0) and are not used. *)
Definition os_Pipe_call (answer : string + (fd * fd)) : M (fd * fd * option error) :=
  match answer with
  | inl text =>
      emit (EvPipe None) ;; ret (0, 0, Some (errorOf os_Pipe text))
  | inr (r, w) =>
      emit (EvPipe (Some (r, w))) ;;
      modify (fun s => set_open_files (open_files s ∪ {[r; w]}) s) ;;
      ret (r, w, None)
  end.

Definition Close (f : fd) : M unit :=
  emit (EvClose f) ;;
  modify (fun s => set_open_files (open_files s ∖ {[f]}) s).

Definition syscall_ForkExec_call (answer : option string)
    (argv0 : string) (argv : list string) (attr : ProcAttr) : M (option error) :=
  emit (EvForkExec argv0 argv attr (is_nil answer)) ;;
  ret (tag syscall_ForkExec answer).

Definition gob_Encode_call (answer : option string)
    (w : fd) (v : caddyfileGob) : M (option error) :=
  emit (EvEncode w v (is_nil answer)) ;;
  ret (tag gob_Encode answer).

Definition ioutil_ReadAll_call (answer : list byte * option string)
    (r : fd) : M (list byte * option error) :=
  emit (EvReadAll r (fst answer) (is_nil (snd answer))) ;;
  ret (fst answer, tag ioutil_ReadAll (snd answer)).

Definition log_Println (line : string) : M unit := emit (EvLog line).

Definition Stop_call (R : Registry) : M (option error) :=
  l <- get servers ;;
  let '(e, l') := stop_all R l in
  emit (EvStop (is_nil e)) ;;
  modify (set_servers l') ;;
  ret (tag caddy_Stop e).

Definition Start_call (R : Registry) (cdyfile : option Input) : M (option error) :=
  l <- get servers ;;
  let '(e, l') := start_all R cdyfile l in
  emit (EvStart cdyfile (is_nil e)) ;;
  modify (set_servers l') ;;
  ret (tag caddy_Start e).

(** A method call on an interface value panics when the value is nil. *)
Definition call_Body (i : option Input) : M (list byte) :=
  match i with
  | Some c => ret (Body c)
  | None => panic
  end.

(** [a[0]] panics on an empty slice. *)
Definition index0 (a : list string) : M string :=
  match a with
  | x :: _ => ret x
  | [] => panic
  end.

(** The loop [for i, s := range servers], started at index [i]. *)
Fixpoint range_servers (i : Z) (l : list Server)
    (fds : list fd) (m : gmap string Z) : list fd * gmap string Z :=
  match l with
  | [] => (fds, m)
  | s :: rest =>
      range_servers (i + 1) rest
        (fds ++ [ListenerFd s])
        (<[Addr s := uintptr_of_int (int_add 4 i)]> m)
  end.

(** ** [Restart] *)

Definition Restart (R : Registry) (H : Host) (newCaddyfile : option Input)
    : M Empty_set :=
  newCaddyfile <-
    match newCaddyfile with
    | None =>
        Lock caddyfileMu ;;
        c <- load_caddyfile ;;
        Unlock caddyfileMu ;;
        ret c
    | Some c => ret (Some c)
    end ;;
  goos <- get GOOS ;;
  if String.eqb goos "windows" then
    err <- Stop_call R ;;
    return_if_error err ;;
    err <- Start_call R newCaddyfile ;;
    return_if_error err ;;
    return_ None
  else
    args <- get Args ;;
    (if Nat.eqb (List.length args) 0
     then modify (set_Args [""])
     else ret tt) ;;
    os_Setenv "CADDY_RESTART" "true" ;;
    body <- call_Body newCaddyfile ;;
    let cdyfileGob := {| ListenerFds := ∅; Caddyfile := body |} in
    p <- os_Pipe_call (config_pipe H) ;;
    let '(rpipe, wpipe, err) := p in
    return_if_error err ;;
    p <- os_Pipe_call (signal_pipe H) ;;
    let '(sigrpipe, sigwpipe, err) := p in
    return_if_error err ;;
    stdout <- get Stdout ;;
    stderr <- get Stderr ;;
    let fds := [rpipe; stdout; stderr; sigwpipe] in
    Lock serversMu ;;
    l <- get servers ;;
    let '(fds, m) := range_servers 0 l fds (ListenerFds cdyfileGob) in
    let cdyfileGob := {| ListenerFds := m; Caddyfile := Caddyfile cdyfileGob |} in
    Unlock serversMu ;;
    env <- os_Environ ;;
    let execSpec := {| Env := env; Files := fds |} in
    args <- get Args ;;
    argv0 <- index0 args ;;
    err <- syscall_ForkExec_call (forkexec_error H) argv0 args execSpec ;;
    return_if_error err ;;
    err <- gob_Encode_call (encode_error H) wpipe cdyfileGob ;;
    return_if_error err ;;
    Close wpipe ;;
    Close sigwpipe ;;
    a <- ioutil_ReadAll_call (readall_answer H) sigrpipe ;;
    let '(answer, err) := a in
    if negb (is_nil err) || Nat.eqb (List.length answer) 0
    then
      log_Println "restart: child failed to answer; changes not applied" ;;
      return_ (Some incompleteRestartErr)
    else
      err <- Stop_call R ;;
      return_ err.

(** [isRestart] *)
Definition isRestart (w : World) : bool :=
  String.eqb (os_Getenv "CADDY_RESTART" w) "true".

(** ** Observations on a run *)

(** The configuration a call works with: the argument, or the protected
    [caddyfile] when the argument is nil. *)
Definition chosen (cfg : option Input) (w : World) : option Input :=
  match cfg with
  | Some c => Some c
  | None => caddyfile w
  end.

(** The calls made on the way to that configuration. *)
Definition chosen_calls (cfg : option Input) : list Event :=
  match cfg with
  | Some _ => []
  | None => [EvLock caddyfileMu; EvLoadCaddyfile; EvUnlock caddyfileMu]
  end.

(** The servers of a registry that are serving. *)
Definition running (l : list Server) : list Server := List.filter serving l.

Definition is_Stop (e : Event) : bool :=
  match e with EvStop _ => true | _ => false end.

Definition is_Close (e : Event) : bool :=
  match e with EvClose _ => true | _ => false end.

Definition is_ReadAll (e : Event) : bool :=
  match e with EvReadAll _ _ _ => true | _ => false end.

Definition touches_caddyfile (e : Event) : bool :=
  match e with
  | EvLock caddyfileMu | EvUnlock caddyfileMu | EvLoadCaddyfile => true
  | _ => false
  end.

Definition creates_pipe_or_child (e : Event) : bool :=
  match e with
  | EvPipe _ | EvForkExec _ _ _ _ => true
  | _ => false
  end.

(** No call of the list satisfies [p]. *)
Definition none (p : Event -> bool) (l : list Event) : bool :=
  forallb (fun e => negb (p e)) l.

(** The four steps of the handover protocol. *)
Inductive Step := Launch | SendPayload | AwaitSignal | StopServers.

Definition step_of (e : Event) : option Step :=
  match e with
  | EvForkExec _ _ _ _ => Some Launch
  | EvEncode _ _ _ => Some SendPayload
  | EvReadAll _ _ _ => Some AwaitSignal
  | EvStop _ => Some StopServers
  | _ => None
  end.

(** The descriptor list given to [syscall.ForkExec]. *)
Definition handed_files (l : list Event) : option (list fd) :=
  head (omap (fun e => match e with
                       | EvForkExec _ _ attr _ => Some (Files attr)
                       | _ => None
                       end) l).

(** The value given to the gob encoder. *)
Definition sent_payload (l : list Event) : option caddyfileGob :=
  head (omap (fun e => match e with
                       | EvEncode _ v _ => Some v
                       | _ => None
                       end) l).

(** A run with some calls put in front. *)
Definition after {A} (pre : list Event) (r : Run A) : Run A :=
  {| flow := flow r; final := final r; calls := pre ++ calls r |}.

(** ** Sample processes *)

Definition sample_caddyfile : CaddyfileInput :=
  {| Filepath := "Caddyfile"; Contents := [x3a; x38; x30; x38; x30] |}.

Definition sample_servers : list Server :=
  [ {| Addr := ":8080"; listener := 10; serving := true |};
    {| Addr := ":8443"; listener := 11; serving := true |} ].

Definition sample_world : World :=
  {| GOOS := "linux"; Args := ["caddy"]; environment := ∅;
     Stdout := 1; Stderr := 2; open_files := {[0; 1; 2; 10; 11]};
     caddyfile := Some (sample_caddyfile : Input);
     servers := sample_servers |}.

Definition windows_world : World :=
  {| GOOS := "windows"; Args := ["caddy.exe"]; environment := ∅;
     Stdout := 1; Stderr := 2; open_files := {[0; 1; 2; 10; 11]};
     caddyfile := Some (sample_caddyfile : Input);
     servers := sample_servers |}.

(** Two servers registered under one address. *)
Definition shared_address_world : World :=
  {| GOOS := "linux"; Args := ["caddy"]; environment := ∅;
     Stdout := 1; Stderr := 2; open_files := {[0; 1; 2; 10; 11]};
     caddyfile := Some (sample_caddyfile : Input);
     servers := [ {| Addr := ":80"; listener := 10; serving := true |};
                  {| Addr := ":80"; listener := 11; serving := true |} ] |}.

Definition halt (s : Server) : Server :=
  {| Addr := Addr s; listener := listener s; serving := false |}.

(** A registry whose [Stop] halts every server and whose [Start] starts
    nothing new. *)
Definition sample_registry : Registry :=
  {| stop_all := fun l => (None, halt <$> l);
     start_all := fun _ l => (None, l) |}.


(** The same, with a [Stop] that fails. *)
Definition failing_stop_registry : Registry :=
  {| stop_all := fun l => (Some "stop: server did not shut down", l);
     start_all := fun _ l => (None, l) |}.

(** The child answers [OK]. *)
Definition answering_host : Host :=
  {| config_pipe := inr (3, 4); signal_pipe := inr (5, 6);
     forkexec_error := None; encode_error := None;
     readall_answer := ([x4f; x4b], None) |}.

(** The child closes the signal pipe without writing. *)
Definition silent_host : Host :=
  {| config_pipe := inr (3, 4); signal_pipe := inr (5, 6);
     forkexec_error := None; encode_error := None;
     readall_answer := ([], None) |}.

(** The operating system refuses to create the child. *)
Definition refusing_host : Host :=
  {| config_pipe := inr (3, 4); signal_pipe := inr (5, 6);
     forkexec_error := Some "fork/exec caddy: resource temporarily unavailable";
     encode_error := None;
     readall_answer := ([], None) |}.

(** Writing the payload fails. *)
Definition broken_pipe_host : Host :=
  {| config_pipe := inr (3, 4); signal_pipe := inr (5, 6);
     forkexec_error := None;
     encode_error := Some "write |1: broken pipe";
     readall_answer := ([], None) |}.

(** ** Further observations *)

(** The calls that are steps of the handover protocol. *)
Definition is_step (e : Event) : bool :=
  match step_of e with Some _ => true | None => false end.

(** A configuration other than the one stored in the sample process. *)
Definition other_caddyfile : CaddyfileInput :=
  {| Filepath := "other.conf"; Contents := [x3a; x34; x34; x33] |}.

Definition is_Start (e : Event) : bool :=
  match e with EvStart _ _ => true | _ => false end.

(** The calls that go to the operating system, the child or the log. *)
Definition is_host_call (e : Event) : bool :=
  match e with
  | EvSetenv _ _ | EvPipe _ | EvForkExec _ _ _ _ | EvEncode _ _ _
  | EvClose _ | EvReadAll _ _ _ | EvLog _ => true
  | _ => false
  end.

(** The program, the argument vector and the attributes given to
    [syscall.ForkExec]. *)
Definition launched (l : list Event) : option (string * list string * ProcAttr) :=
  head (omap (fun e => match e with
                       | EvForkExec a0 a attr _ => Some (a0, a, attr)
                       | _ => None
                       end) l).

(** The descriptors closed, in the order of the [Close] calls. *)
Definition closed (l : list Event) : list fd :=
  omap (fun e => match e with EvClose f => Some f | _ => None end) l.

Definition Mutex_eqb (a b : Mutex) : bool :=
  match a, b with
  | caddyfileMu, caddyfileMu | serversMu, serversMu => true
  | _, _ => false
  end.

(** The locking discipline of a list of calls, started with [held] locked:
    a mutex is locked only while none is held and unlocked only while it is
    the one held, [caddyfile] is loaded only under [caddyfileMu], every
    other call is made with no mutex held, and none is held at the end. *)
Fixpoint well_locked (held : option Mutex) (l : list Event) : bool :=
  match l with
  | [] => is_nil held
  | EvLock m :: l' => is_nil held && well_locked (Some m) l'
  | EvUnlock m :: l' =>
      match held with
      | Some m' => Mutex_eqb m m' && well_locked None l'
      | None => false
      end
  | EvLoadCaddyfile :: l' =>
      match held with
      | Some caddyfileMu => well_locked held l'
      | _ => false
      end
  | _ :: l' => is_nil held && well_locked held l'
  end.

(** A world whose environment already carries the restart flag. *)
Definition restarted_world : World :=
  {| GOOS := "linux"; Args := []; environment := {["CADDY_RESTART" := "true"]};
     Stdout := 1; Stderr := 2; open_files := {[0; 1; 2; 10; 11]};
     caddyfile := Some (sample_caddyfile : Input);
     servers := sample_servers |}.

(** A process in which no configuration has been stored yet. *)
Definition unconfigured_world : World :=
  {| GOOS := "linux"; Args := ["caddy"]; environment := ∅;
     Stdout := 1; Stderr := 2; open_files := {[0; 1; 2]};
     caddyfile := None;
     servers := [] |}.

(** The first [os.Pipe] fails. *)
Definition pipeless_host : Host :=
  {| config_pipe := inl "pipe: too many open files";
     signal_pipe := inr (5, 6);
     forkexec_error := None; encode_error := None;
     readall_answer := ([], None) |}.

(** The second [os.Pipe] fails. *)
Definition one_pipe_host : Host :=
  {| config_pipe := inr (3, 4);
     signal_pipe := inl "pipe: too many open files";
     forkexec_error := None; encode_error := None;
     readall_answer := ([], None) |}.

(** * Properties *)

(** ** Symbolic execution *)

Lemma eqb_not_windows (w : World) :
  GOOS w <> "windows" -> String.eqb (GOOS w) "windows" = false.
Proof. intros Hw. by apply String.eqb_neq. Qed.

Lemma eqb_windows (w : World) :
  GOOS w = "windows" -> String.eqb (GOOS w) "windows" = true.
Proof. intros Hw. by apply String.eqb_eq. Qed.

Ltac unfold_calls :=
  unfold Restart, Lock, Unlock, load_caddyfile, os_Setenv, os_Environ,
    os_Pipe_call, Close, syscall_ForkExec_call, gob_Encode_call,
    ioutil_ReadAll_call, log_Println, Stop_call, Start_call, call_Body,
    index0, return_if_error, emit, modify, get, return_, panic, ret, bind, tag.

(** One case split on what the run depends on next. *)
Ltac branch :=
  match goal with
  | |- context [match ?x with _ => _ end] => is_var x; destruct x
  | |- context [Nat.eqb (List.length ?x) 0] => is_var x; destruct x
  | |- context [caddyfile ?w] => destruct (caddyfile w) eqn:?
  | |- context [Args ?w] => destruct (Args w) eqn:?
  | |- context [range_servers ?i ?l ?f ?m] =>
      destruct (range_servers i l f m) as [? ?] eqn:?
  | |- context [stop_all ?R ?l] => destruct (stop_all R l) as [? ?] eqn:?
  | |- context [start_all ?R ?c ?l] => destruct (start_all R c l) as [? ?] eqn:?
  end.

(** Equations at hand decide a case before any split is made. *)
Ltac settle :=
  repeat match goal with
  | E : caddyfile ?w = _ |- context [caddyfile ?w] => rewrite E
  | E : Args ?w = _ |- context [Args ?w] => rewrite E
  | E : range_servers ?i ?l ?f ?m = _ |- context [range_servers ?i ?l ?f ?m] =>
      rewrite E
  | E : stop_all ?R ?l = _ |- context [stop_all ?R ?l] => rewrite E
  | E : start_all ?R ?c ?l = _ |- context [start_all ?R ?c ?l] => rewrite E
  end.

Ltac run_with Hw :=
  unfold_calls;
  repeat (cbn;
          first [ rewrite (eqb_not_windows _ Hw)
                | rewrite (eqb_windows _ Hw)
                | progress settle
                | branch ]);
  cbn.

(** X18.  Called off Windows with a nil argument while [caddyfile] is nil
    too, [Restart] panics at [newCaddyfile.Body()]: by then the flag has
    been set, and no pipe has been made and no child launched. *)
Theorem Restart_panics_without_configuration R H cfg w :
  GOOS w <> "windows" ->
  chosen cfg w = None ->
  flow (Restart R H cfg w) = Panic /\
  calls (Restart R H cfg w)
  = chosen_calls cfg ++ [EvSetenv "CADDY_RESTART" "true"] /\
  isRestart (final (Restart R H cfg w)) = true.
Proof.
  intros Hw Hc.
  destruct H as [cp sp fe ee [ans re]].
  destruct cfg as [c|]; simpl in Hc; [discriminate|].
  run_with Hw; (split; [done|]); (split; [done|]);
    unfold isRestart, os_Getenv; cbn; by rewrite lookup_insert_eq.
Qed.

(** ** The offset [uintptr(4 + i)] *)

Lemma offset_in_range (i : Z) :
  0 <= i -> 4 + i < 2 ^ 63 -> uintptr_of_int (int_add 4 i) = 4 + i.
Proof.
  intros Hlo Hhi. unfold uintptr_of_int, int_add.
  rewrite (Z.mod_small (4 + i + 2 ^ 63)) by lia.
  rewrite Z.mod_small; lia.
Qed.

(** ** The loop over the registry *)

Lemma range_servers_fds (l : list Server) : forall i fds m,
  (range_servers i l fds m).1 = fds ++ (ListenerFd <$> l).
Proof.
  induction l as [|s l IH]; intros i fds m; simpl.
  - by rewrite app_nil_r.
  - by rewrite IH, <- app_assoc.
Qed.

Lemma range_servers_absent (l : list Server) : forall i fds (m : gmap string Z) a,
  a ∉ (Addr <$> l) ->
  (range_servers i l fds m).2 !! a = m !! a.
Proof.
  induction l as [|s l IH]; intros i fds m a Ha; simpl; [done|].
  rewrite fmap_cons, not_elem_of_cons in Ha. destruct Ha as [Hne Ha].
  rewrite IH by done. by rewrite lookup_insert_ne.
Qed.

Lemma range_servers_lookup (l : list Server) : forall i fds (m : gmap string Z) (j : nat) s,
  NoDup (Addr <$> l) ->
  l !! j = Some s ->
  (range_servers i l fds m).2 !! Addr s
  = Some (uintptr_of_int (int_add 4 (i + Z.of_nat j))).
Proof.
  induction l as [|s0 l IH]; intros i fds m j s Hnd Hj; [done|].
  rewrite fmap_cons, NoDup_cons in Hnd. destruct Hnd as [Hfresh Hnd].
  destruct j as [|j]; simpl in *.
  - injection Hj as ->.
    rewrite range_servers_absent by done.
    rewrite lookup_insert_eq. by rewrite Z.add_0_r.
  - rewrite (IH _ _ _ j s) by done.
    do 3 f_equal. lia.
Qed.

(** Every entry of the mapping comes from a registered server. *)
Lemma range_servers_origin (l : list Server) i fds a k :
  NoDup (Addr <$> l) ->
  (range_servers i l fds ∅).2 !! a = Some k ->
  exists (j : nat) s,
    l !! j = Some s /\ Addr s = a /\
    k = uintptr_of_int (int_add 4 (i + Z.of_nat j)).
Proof.
  intros Hnd Hk.
  destruct (decide (a ∈ Addr <$> l)) as [Hin|Hout].
  - apply list_elem_of_fmap in Hin as (s & -> & Hs).
    apply list_elem_of_lookup in Hs as [j Hj].
    exists j, s. split; [done|]. split; [done|].
    rewrite (range_servers_lookup l i fds ∅ j s) in Hk by done.
    by injection Hk.
  - rewrite range_servers_absent in Hk by done.
    by rewrite lookup_empty in Hk.
Qed.

Lemma range_servers_dom (l : list Server) : forall i fds (m : gmap string Z),
  dom (range_servers i l fds m).2 = dom m ∪ list_to_set (Addr <$> l).
Proof.
  induction l as [|s l IH]; intros i fds m; simpl.
  - by rewrite (right_id_L ∅ (∪)).
  - rewrite IH, dom_insert_L.
    by rewrite (comm_L (∪) {[Addr s]} (dom m)), (assoc_L (∪)).
Qed.

Lemma range_servers_entry (l : list Server) : forall i fds (m : gmap string Z) a k,
  (range_servers i l fds m).2 !! a = Some k ->
  (m !! a = Some k /\ a ∉ (Addr <$> l)) \/
  exists (j : nat) s,
    l !! j = Some s /\ Addr s = a /\
    k = uintptr_of_int (int_add 4 (i + Z.of_nat j)).
Proof.
  induction l as [|s0 l IH]; intros i fds m a k Hk; simpl in Hk.
  - left. split; [done|]. apply not_elem_of_nil.
  - apply IH in Hk as [[Hm Hout]|(j & s & Hj & Ha & ->)].
    + destruct (decide (Addr s0 = a)) as [<-|Hne].
      * rewrite lookup_insert_eq in Hm. injection Hm as <-.
        right. exists 0%nat, s0. by rewrite Z.add_0_r.
      * rewrite lookup_insert_ne in Hm by done.
        left. split; [done|]. rewrite fmap_cons, not_elem_of_cons. done.
    + right. exists (S j), s. split; [done|]. split; [done|].
      do 2 f_equal. lia.
Qed.

(** ** What is handed to the child *)

(** Once the child is launched, the descriptor list and the payload are the
    two results of the loop over the registry. *)
Lemma launched_table R H cfg w c r wp sr sw :
  GOOS w <> "windows" ->
  chosen cfg w = Some c ->
  config_pipe H = inr (r, wp) ->
  signal_pipe H = inr (sr, sw) ->
  forkexec_error H = None ->
  handed_files (calls (Restart R H cfg w))
  = Some (range_servers 0 (servers w) [r; Stdout w; Stderr w; sw] ∅).1 /\
  sent_payload (calls (Restart R H cfg w))
  = Some {| ListenerFds :=
              (range_servers 0 (servers w) [r; Stdout w; Stderr w; sw] ∅).2;
            Caddyfile := Body c |}.
Proof.
  intros Hw Hc Hcp Hsp Hfe.
  destruct H as [cp sp fe ee [ans re]]; simpl in *; subst.
  destruct cfg as [c'|]; simpl in Hc; [injection Hc as ->|];
    run_with Hw; done.
Qed.

Lemma registry_offset (l : list Server) (j : nat) :
  (j < length l)%nat ->
  Z.of_nat (length l) + 4 <= 2 ^ 63 ->
  uintptr_of_int (int_add 4 (0 + Z.of_nat j)) = 4 + Z.of_nat j.
Proof. intros Hj Hl. rewrite Z.add_0_l. apply offset_in_range; lia. Qed.

(** Every address of the registry has an entry in the mapping. *)
Lemma mapping_covers (l : list Server) fds s :
  s ∈ l -> is_Some ((range_servers 0 l fds ∅).2 !! Addr s).
Proof.
  intros Hs. apply (elem_of_dom (D := gset string)).
  rewrite range_servers_dom.
  apply elem_of_union_r, elem_of_list_to_set. by apply list_elem_of_fmap_2.
Qed.

(** Every entry of the mapping is the position of a registered server with
    the entry's address. *)
Lemma mapping_entry (l : list Server) fds a k :
  Z.of_nat (length l) + 4 <= 2 ^ 63 ->
  (range_servers 0 l fds ∅).2 !! a = Some k ->
  exists (j : nat) s, l !! j = Some s /\ Addr s = a /\ k = 4 + Z.of_nat j.
Proof.
  intros Hlen Hk.
  apply range_servers_entry in Hk as [[Hm _]|(j & s & Hj & Ha & ->)].
  - by rewrite lookup_empty in Hm.
  - exists j, s. split; [done|]. split; [done|].
    apply (registry_offset l); [|done]. by apply lookup_lt_Some in Hj.
Qed.

(** C3, as amended.  For every registry, the descriptor list handed to the
    child starts with the read end of the config pipe, the parent's stdout,
    the parent's stderr and the write end of the signal pipe, followed by
    the listener descriptors in registry order, and (the indices fitting an
    [int]) the payload maps the address of every listener to a position
    [4 + j] that holds the descriptor of a listener registered under that
    address; when the registered addresses are pairwise distinct, that
    position is the listener's own, [4 + i]. *)
Theorem descriptor_table_layout R H cfg w c r wp sr sw :
  GOOS w <> "windows" ->
  chosen cfg w = Some c ->
  config_pipe H = inr (r, wp) ->
  signal_pipe H = inr (sr, sw) ->
  forkexec_error H = None ->
  exists files payload,
    handed_files (calls (Restart R H cfg w)) = Some files /\
    sent_payload (calls (Restart R H cfg w)) = Some payload /\
    files = [r; Stdout w; Stderr w; sw] ++ (ListenerFd <$> servers w) /\
    (forall (i : nat) s,
       servers w !! i = Some s ->
       files !! (4 + i)%nat = Some (ListenerFd s)) /\
    (Z.of_nat (length (servers w)) + 4 <= 2 ^ 63 ->
     (forall (i : nat) s,
        servers w !! i = Some s ->
        exists (j : nat) s',
          servers w !! j = Some s' /\
          Addr s' = Addr s /\
          ListenerFds payload !! Addr s = Some (4 + Z.of_nat j) /\
          files !! (4 + j)%nat = Some (ListenerFd s')) /\
     (NoDup (Addr <$> servers w) ->
      forall (i : nat) s,
        servers w !! i = Some s ->
        ListenerFds payload !! Addr s = Some (4 + Z.of_nat i))).
Proof.
  intros Hw Hc Hcp Hsp Hfe.
  destruct (launched_table R H cfg w c r wp sr sw) as [Hf Hp]; try done.
  assert (forall (i : nat) s,
            servers w !! i = Some s ->
            (range_servers 0 (servers w) [r; Stdout w; Stderr w; sw] ∅).1
              !! (4 + i)%nat = Some (ListenerFd s)) as Hpos.
  { intros i s Hi. rewrite range_servers_fds. simpl.
    by rewrite list_lookup_fmap, Hi. }
  eexists _, _. split; [exact Hf|]. split; [exact Hp|].
  split; [apply range_servers_fds|]. split; [exact Hpos|].
  intros Hlen. simpl. split.
  - intros i s Hi.
    destruct (mapping_covers (servers w) [r; Stdout w; Stderr w; sw] s)
      as [k Hk]; [by eapply list_elem_of_lookup_2|].
    destruct (mapping_entry _ _ _ _ Hlen Hk) as (j & s' & Hj & Ha & ->).
    exists j, s'. split; [done|]. split; [done|]. split; [done|].
    by apply Hpos.
  - intros Hnd i s Hi.
    rewrite (range_servers_lookup _ _ _ _ i s) by done.
    f_equal. apply (registry_offset (servers w)); [|done].
    by apply lookup_lt_Some in Hi.
Qed.

Lemma descriptor_table_layout_witness :
  exists files payload,
    handed_files (calls (Restart sample_registry answering_host None sample_world))
    = Some files /\
    sent_payload (calls (Restart sample_registry answering_host None sample_world))
    = Some payload /\
    files = [3; 1; 2; 6] ++ (ListenerFd <$> sample_servers) /\
    forall (i : nat) s,
      sample_servers !! i = Some s ->
      files !! (4 + i)%nat = Some (ListenerFd s) /\
      ListenerFds payload !! Addr s = Some (4 + Z.of_nat i).
Proof.
  destruct (descriptor_table_layout sample_registry answering_host None
              sample_world sample_caddyfile 3 4 5 6)
    as (files & payload & Hf & Hp & Hfiles & Hpos & Hmap);
    try reflexivity; [discriminate|].
  exists files, payload.
  split; [exact Hf|]. split; [exact Hp|]. split; [exact Hfiles|].
  intros i s Hi. split; [by apply Hpos|].
  apply Hmap; [|apply (bool_decide_unpack _); vm_compute; exact I|exact Hi].
  vm_compute. discriminate.
Defined.

(** With two servers registered under [":80"], the address of the first is
    mapped to position 5, not to position 4 where its descriptor is. *)
Lemma shared_address_breaks_mapping :
  ~ (forall (i : nat) s payload,
       sent_payload
         (calls (Restart sample_registry answering_host None shared_address_world))
       = Some payload ->
       servers shared_address_world !! i = Some s ->
       ListenerFds payload !! Addr s = Some (4 + Z.of_nat i)).
Proof.
  intros Hc.
  destruct (launched_table sample_registry answering_host None
              shared_address_world sample_caddyfile 3 4 5 6) as [_ Hp];
    try done.
  specialize (Hc 0%nat _ _ Hp eq_refl). simpl in Hc.
  rewrite lookup_insert_eq in Hc. vm_compute in Hc. discriminate.
Qed.

(** The offsets of the mapping, for pairwise distinct addresses. *)
Lemma range_servers_offsets (l : list Server) fds :
  NoDup (Addr <$> l) ->
  Z.of_nat (length l) + 4 <= 2 ^ 63 ->
  map_img (range_servers 0 l fds ∅).2
  = (list_to_set (seqZ 4 (Z.of_nat (length l))) : gset Z).
Proof.
  intros Hnd Hlen. apply set_eq. intros k.
  rewrite elem_of_map_img, elem_of_list_to_set, elem_of_seqZ. split.
  - intros [a Ha].
    apply range_servers_origin in Ha as (j & s & Hj & _ & ->); [|done].
    apply lookup_lt_Some in Hj.
    rewrite (registry_offset l) by done. lia.
  - intros [Hlo Hhi].
    destruct (lookup_lt_is_Some_2 l (Z.to_nat (k - 4))) as [s Hs]; [lia|].
    exists (Addr s).
    rewrite (range_servers_lookup _ _ _ _ _ s) by done.
    apply lookup_lt_Some in Hs.
    rewrite (registry_offset l) by done. f_equal. lia.
Qed.

Lemma range_servers_injective (l : list Server) fds a1 a2 k :
  Z.of_nat (length l) + 4 <= 2 ^ 63 ->
  (range_servers 0 l fds ∅).2 !! a1 = Some k ->
  (range_servers 0 l fds ∅).2 !! a2 = Some k ->
  a1 = a2.
Proof.
  intros Hlen H1 H2.
  apply mapping_entry in H1 as (j1 & s1 & Hj1 & <- & ->); [|done].
  apply mapping_entry in H2 as (j2 & s2 & Hj2 & <- & E); [|done].
  assert (j1 = j2) as -> by lia.
  congruence.
Qed.

(** C4, as amended.  For every snapshot of [N] registered listeners the
    descriptor list has length [N + 4], every offset of the mapping lies in
    4, ..., 3 + N, and no two addresses are mapped to the same offset (the
    indices fitting an [int]); when the registered addresses are pairwise
    distinct, the offsets are exactly 4, ..., 3 + N, with no gaps. *)
Theorem descriptor_table_offsets R H cfg w c r wp sr sw :
  GOOS w <> "windows" ->
  chosen cfg w = Some c ->
  config_pipe H = inr (r, wp) ->
  signal_pipe H = inr (sr, sw) ->
  forkexec_error H = None ->
  exists files payload,
    handed_files (calls (Restart R H cfg w)) = Some files /\
    sent_payload (calls (Restart R H cfg w)) = Some payload /\
    length files = (length (servers w) + 4)%nat /\
    (Z.of_nat (length (servers w)) + 4 <= 2 ^ 63 ->
     (forall a k,
        ListenerFds payload !! a = Some k ->
        4 <= k < 4 + Z.of_nat (length (servers w))) /\
     (forall a1 a2 k,
        ListenerFds payload !! a1 = Some k ->
        ListenerFds payload !! a2 = Some k ->
        a1 = a2) /\
     (NoDup (Addr <$> servers w) ->
      map_img (ListenerFds payload)
      = (list_to_set (seqZ 4 (Z.of_nat (length (servers w)))) : gset Z))).
Proof.
  intros Hw Hc Hcp Hsp Hfe.
  destruct (launched_table R H cfg w c r wp sr sw) as [Hf Hp]; try done.
  eexists _, _. split; [exact Hf|]. split; [exact Hp|]. split.
  - rewrite range_servers_fds, length_app, length_fmap. simpl. lia.
  - intros Hlen. simpl. split; [|split].
    + intros a k Hk.
      apply mapping_entry in Hk as (j & s & Hj & _ & ->); [|done].
      apply lookup_lt_Some in Hj. lia.
    + intros a1 a2 k. by apply range_servers_injective.
    + intros Hnd. by apply range_servers_offsets.
Qed.

Lemma descriptor_table_offsets_witness :
  exists files payload,
    handed_files (calls (Restart sample_registry answering_host None sample_world))
    = Some files /\
    sent_payload (calls (Restart sample_registry answering_host None sample_world))
    = Some payload /\
    length files = 6%nat /\
    (forall a k, ListenerFds payload !! a = Some k -> 4 <= k < 6) /\
    (forall a1 a2 k,
       ListenerFds payload !! a1 = Some k ->
       ListenerFds payload !! a2 = Some k ->
       a1 = a2) /\
    map_img (ListenerFds payload) = (list_to_set (seqZ 4 2) : gset Z).
Proof.
  destruct (descriptor_table_offsets sample_registry answering_host None
              sample_world sample_caddyfile 3 4 5 6)
    as (files & payload & Hf & Hp & Hlen & Hoff);
    try reflexivity; [discriminate|].
  exists files, payload.
  split; [exact Hf|]. split; [exact Hp|]. split; [exact Hlen|].
  destruct Hoff as (Hrange & Hinj & Hexact); [vm_compute; discriminate|].
  split; [exact Hrange|]. split; [exact Hinj|].
  apply Hexact. apply (bool_decide_unpack _). vm_compute. exact I.
Defined.

(** With two servers registered under [":80"], the mapping has the single
    offset 5: offset 4 is missing from it. *)
Lemma shared_address_breaks_offsets :
  ~ (forall payload,
       sent_payload
         (calls (Restart sample_registry answering_host None shared_address_world))
       = Some payload ->
       map_img (ListenerFds payload)
       = (list_to_set (seqZ 4 (Z.of_nat (length (servers shared_address_world))))
          : gset Z)).
Proof.
  intros Hc.
  destruct (launched_table sample_registry answering_host None
              shared_address_world sample_caddyfile 3 4 5 6) as [_ Hp];
    try done.
  specialize (Hc _ Hp). simpl in Hc.
  rewrite insert_insert_eq, insert_empty, map_img_singleton_L in Hc.
  assert (4 ∈ ({[uintptr_of_int (int_add 4 (0 + 1))]} : gset Z)) as Hin.
  { rewrite Hc. apply elem_of_union_l, elem_of_singleton. reflexivity. }
  apply elem_of_singleton in Hin. vm_compute in Hin. discriminate.
Qed.

(** ** The handshake *)

Lemma running_halt (l : list Server) : running (halt <$> l) = [].
Proof. induction l as [|s l IH]; [done|]. simpl. exact IH. Qed.

(** C1.  On the graceful path, a read of the signal pipe that reports an
    error or hands back no bytes makes [Restart] return
    [incompleteRestartErr]; [Stop] is not called and the registered servers
    are what they were before the call. *)
Theorem Restart_unanswered R H cfg w c r wp sr sw ans re :
  GOOS w <> "windows" ->
  chosen cfg w = Some c ->
  config_pipe H = inr (r, wp) ->
  signal_pipe H = inr (sr, sw) ->
  forkexec_error H = None ->
  encode_error H = None ->
  readall_answer H = (ans, re) ->
  re <> None \/ ans = [] ->
  flow (Restart R H cfg w) = Return (Some incompleteRestartErr) /\
  none is_Stop (calls (Restart R H cfg w)) = true /\
  servers (final (Restart R H cfg w)) = servers w.
Proof.
  intros Hw Hc Hcp Hsp Hfe Hee Hra Hbad.
  destruct H as [cp sp fe ee ra]; simpl in *; subst.
  destruct cfg as [c'|]; simpl in Hc; [injection Hc as ->|];
    run_with Hw; try done; by destruct Hbad.
Qed.

Lemma Restart_unanswered_witness :
  flow (Restart sample_registry silent_host None sample_world)
  = Return (Some incompleteRestartErr) /\
  none is_Stop (calls (Restart sample_registry silent_host None sample_world))
  = true /\
  servers (final (Restart sample_registry silent_host None sample_world))
  = sample_servers.
Proof.
  apply (Restart_unanswered sample_registry silent_host None sample_world
           sample_caddyfile 3 4 5 6 [] None);
    try reflexivity.
  - discriminate.
  - right. reflexivity.
Defined.

(** C7, as amended.  On the graceful path, a read of the signal pipe that
    hands back at least one byte (and no error) is followed by one call of
    [Stop] on the whole registry, the last call of the run, and [Restart]
    returns what [Stop] returns: when [Stop] reports no error that is nil,
    and all servers are stopped (none is running, under the contract that a
    [Stop] without error leaves none running); otherwise it is the error of
    [Stop]. *)
Theorem Restart_answered R H cfg w c r wp sr sw b ans e l' :
  GOOS w <> "windows" ->
  chosen cfg w = Some c ->
  config_pipe H = inr (r, wp) ->
  signal_pipe H = inr (sr, sw) ->
  forkexec_error H = None ->
  encode_error H = None ->
  readall_answer H = (b :: ans, None) ->
  stop_all R (servers w) = (e, l') ->
  flow (Restart R H cfg w) = Return (tag caddy_Stop e) /\
  servers (final (Restart R H cfg w)) = l' /\
  (exists pre,
     calls (Restart R H cfg w)
     = pre ++ [EvReadAll sr (b :: ans) true; EvStop (is_nil e)] /\
     none is_Stop pre = true) /\
  (e = None ->
   flow (Restart R H cfg w) = Return None /\
   ((forall l l1, stop_all R l = (None, l1) -> running l1 = []) ->
    running (servers (final (Restart R H cfg w))) = [])).
Proof.
  intros Hw Hc Hcp Hsp Hfe Hee Hra Hstop.
  assert (flow (Restart R H cfg w) = Return (tag caddy_Stop e) /\
          servers (final (Restart R H cfg w)) = l' /\
          exists pre,
            calls (Restart R H cfg w)
            = pre ++ [EvReadAll sr (b :: ans) true; EvStop (is_nil e)] /\
            none is_Stop pre = true) as (Hflow & Hservers & Hcalls).
  { destruct H as [cp sp fe ee ra]; simpl in *; subst.
    destruct cfg as [c'|]; simpl in Hc; [injection Hc as ->|];
      run_with Hw; (split; [done|]); (split; [done|]).
    all: first [ by eexists [_; _; _; _; _; _; _; _; _]
               | by eexists [_; _; _; _; _; _; _; _; _; _; _; _] ]. }
  split; [exact Hflow|]. split; [exact Hservers|]. split; [exact Hcalls|].
  intros ->. split; [exact Hflow|].
  intros Hcontract. rewrite Hservers. by eapply Hcontract.
Qed.

Lemma Restart_answered_witness :
  flow (Restart sample_registry answering_host None sample_world) = Return None /\
  servers (final (Restart sample_registry answering_host None sample_world))
  = halt <$> sample_servers /\
  (exists pre,
     calls (Restart sample_registry answering_host None sample_world)
     = pre ++ [EvReadAll 5 [x4f; x4b] true; EvStop true] /\
     none is_Stop pre = true) /\
  running
    (servers (final (Restart sample_registry answering_host None sample_world)))
  = [].
Proof.
  destruct (Restart_answered sample_registry answering_host None sample_world
              sample_caddyfile 3 4 5 6 x4f [x4b] None (halt <$> sample_servers))
    as (Hflow & Hservers & Hcalls & Hnil);
    try reflexivity; [discriminate|].
  split; [exact Hflow|]. split; [exact Hservers|]. split; [exact Hcalls|].
  destruct Hnil as [_ Hstopped]; [reflexivity|].
  apply Hstopped. intros l l1 E. injection E as <-. apply running_halt.
Defined.

(** The child answers [OK], and [Stop] then fails: [Restart] returns the
    error of [Stop], not nil. *)
Lemma answered_then_stop_error :
  (readall_answer answering_host).1 = [x4f; x4b] /\
  (readall_answer answering_host).2 = None /\
  flow (Restart failing_stop_registry answering_host None sample_world)
  = Return (Some (errorOf caddy_Stop "stop: server did not shut down")) /\
  flow (Restart failing_stop_registry answering_host None sample_world)
  <> Return None.
Proof. repeat split; try reflexivity. discriminate. Qed.

(** ** Failures after the pipes were made *)

(** C5, as amended.  When [syscall.ForkExec] fails, [Restart] returns its
    error at once; [Stop] is not called and the registered servers are what
    they were; no descriptor is closed, and the four pipe descriptors made
    for the attempt stay open. *)
Theorem Restart_launch_refused R H cfg w c r wp sr sw t :
  GOOS w <> "windows" ->
  chosen cfg w = Some c ->
  config_pipe H = inr (r, wp) ->
  signal_pipe H = inr (sr, sw) ->
  forkexec_error H = Some t ->
  flow (Restart R H cfg w) = Return (Some (errorOf syscall_ForkExec t)) /\
  (exists a0 a attr, last (calls (Restart R H cfg w))
                     = Some (EvForkExec a0 a attr false)) /\
  none is_Stop (calls (Restart R H cfg w)) = true /\
  servers (final (Restart R H cfg w)) = servers w /\
  none is_Close (calls (Restart R H cfg w)) = true /\
  open_files (final (Restart R H cfg w))
  = open_files w ∪ {[r; wp]} ∪ {[sr; sw]}.
Proof.
  intros Hw Hc Hcp Hsp Hfe.
  destruct H as [cp sp fe ee ra]; simpl in *; subst.
  destruct cfg as [c'|]; simpl in Hc; [injection Hc as ->|];
    run_with Hw; (split; [done|]); (split; [by eexists _, _, _|]); done.
Qed.

Lemma Restart_launch_refused_witness :
  flow (Restart sample_registry refusing_host None sample_world)
  = Return (Some (errorOf syscall_ForkExec
                    "fork/exec caddy: resource temporarily unavailable")) /\
  (exists a0 a attr,
     last (calls (Restart sample_registry refusing_host None sample_world))
     = Some (EvForkExec a0 a attr false)) /\
  none is_Stop (calls (Restart sample_registry refusing_host None sample_world))
  = true /\
  servers (final (Restart sample_registry refusing_host None sample_world))
  = sample_servers /\
  none is_Close (calls (Restart sample_registry refusing_host None sample_world))
  = true /\
  open_files (final (Restart sample_registry refusing_host None sample_world))
  = {[0; 1; 2; 10; 11]} ∪ {[3; 4]} ∪ {[5; 6]}.
Proof.
  apply (Restart_launch_refused sample_registry refusing_host None sample_world
           sample_caddyfile 3 4 5 6);
    try reflexivity.
  discriminate.
Defined.

(** The launch is refused: [Restart] returns the error and leaves the
    servers alone, yet descriptors 3, 4, 5 and 6, the two pipes, are open. *)
Lemma refused_launch_leaves_pipes_open :
  ~ (flow (Restart sample_registry refusing_host None sample_world)
     = Return (Some (errorOf syscall_ForkExec
                       "fork/exec caddy: resource temporarily unavailable")) /\
     servers (final (Restart sample_registry refusing_host None sample_world))
     = sample_servers /\
     forall f, f ∈ [3; 4; 5; 6] ->
       f ∉ open_files (final (Restart sample_registry refusing_host None sample_world))).
Proof.
  intros (_ & _ & Hclosed).
  apply (Hclosed 3); [apply list_elem_of_here|].
  by vm_compute.
Qed.

(** C9.  When writing the payload fails after the child was launched,
    [Restart] returns the encoder's error as it is; [Stop] is not called,
    nothing is closed, so the write end of the config pipe stays open, and
    the signal pipe is not read. *)
Theorem Restart_encode_failed R H cfg w c r wp sr sw t :
  GOOS w <> "windows" ->
  chosen cfg w = Some c ->
  config_pipe H = inr (r, wp) ->
  signal_pipe H = inr (sr, sw) ->
  forkexec_error H = None ->
  encode_error H = Some t ->
  flow (Restart R H cfg w) = Return (Some (errorOf gob_Encode t)) /\
  none is_Stop (calls (Restart R H cfg w)) = true /\
  servers (final (Restart R H cfg w)) = servers w /\
  none is_Close (calls (Restart R H cfg w)) = true /\
  wp ∈ open_files (final (Restart R H cfg w)) /\
  none is_ReadAll (calls (Restart R H cfg w)) = true.
Proof.
  intros Hw Hc Hcp Hsp Hfe Hee.
  destruct H as [cp sp fe ee ra]; simpl in *; subst.
  destruct cfg as [c'|]; simpl in Hc; [injection Hc as ->|];
    run_with Hw; repeat split; try done; set_solver.
Qed.

Lemma Restart_encode_failed_witness :
  flow (Restart sample_registry broken_pipe_host None sample_world)
  = Return (Some (errorOf gob_Encode "write |1: broken pipe")) /\
  none is_Stop (calls (Restart sample_registry broken_pipe_host None sample_world))
  = true /\
  servers (final (Restart sample_registry broken_pipe_host None sample_world))
  = sample_servers /\
  none is_Close (calls (Restart sample_registry broken_pipe_host None sample_world))
  = true /\
  4 ∈ open_files (final (Restart sample_registry broken_pipe_host None sample_world)) /\
  none is_ReadAll (calls (Restart sample_registry broken_pipe_host None sample_world))
  = true.
Proof.
  apply (Restart_encode_failed sample_registry broken_pipe_host None sample_world
           sample_caddyfile 3 4 5 6);
    try reflexivity.
  discriminate.
Defined.

(** ** The order of the steps *)

(** C2.  On the graceful path the protocol steps of a run are an initial
    part of: launch the child, send the payload, await the signal, stop the
    servers.  Either [Stop] is not called at all, or it is the last call,
    made right after a read that reported no error and handed back at least
    one byte, and then all four steps were taken in that order.  Once both
    pipes are made, the steps taken are exactly these: [syscall.ForkExec]
    with the descriptor list; if that succeeded, the encoding of the payload
    to the write end of the config pipe; if that succeeded, the read of the
    read end of the signal pipe; and, if that reported no error and handed
    back at least one byte, [Stop]. *)
Theorem Restart_step_order R H cfg w :
  GOOS w <> "windows" ->
  omap step_of (calls (Restart R H cfg w))
    `prefix_of` [Launch; SendPayload; AwaitSignal; StopServers] /\
  (none is_Stop (calls (Restart R H cfg w)) = true \/
   exists pre r b ans ok,
     calls (Restart R H cfg w)
     = pre ++ [EvReadAll r (b :: ans) true; EvStop ok] /\
     none is_Stop pre = true /\
     omap step_of (calls (Restart R H cfg w))
     = [Launch; SendPayload; AwaitSignal; StopServers]) /\
  (forall c r wp sr sw,
     chosen cfg w = Some c ->
     config_pipe H = inr (r, wp) ->
     signal_pipe H = inr (sr, sw) ->
     exists a0 a env,
       List.filter is_step (calls (Restart R H cfg w))
       = EvForkExec a0 a
           {| Env := env;
              Files := [r; Stdout w; Stderr w; sw] ++ (ListenerFd <$> servers w) |}
           (is_nil (forkexec_error H))
         :: match forkexec_error H with
            | Some _ => []
            | None =>
                EvEncode wp
                  {| ListenerFds :=
                       (range_servers 0 (servers w)
                          [r; Stdout w; Stderr w; sw] ∅).2;
                     Caddyfile := Body c |}
                  (is_nil (encode_error H))
                :: match encode_error H with
                   | Some _ => []
                   | None =>
                       EvReadAll sr (readall_answer H).1
                         (is_nil (readall_answer H).2)
                       :: (if is_nil (readall_answer H).2
                              && negb (Nat.eqb (List.length (readall_answer H).1) 0)
                           then [EvStop (is_nil (stop_all R (servers w)).1)]
                           else [])
                   end
            end).
Proof.
  intros Hw.
  assert (omap step_of (calls (Restart R H cfg w))
            `prefix_of` [Launch; SendPayload; AwaitSignal; StopServers] /\
          (none is_Stop (calls (Restart R H cfg w)) = true \/
           exists pre r b ans ok,
             calls (Restart R H cfg w)
             = pre ++ [EvReadAll r (b :: ans) true; EvStop ok] /\
             none is_Stop pre = true /\
             omap step_of (calls (Restart R H cfg w))
             = [Launch; SendPayload; AwaitSignal; StopServers])) as [Hpre Hstop].
  { destruct H as [cp sp fe ee [ans re]].
    run_with Hw; (split; [by eexists|]).
    all: first [ by left
               | right; by eexists [_; _; _; _; _; _; _; _; _], _, _, _, _
               | right; by eexists [_; _; _; _; _; _; _; _; _; _; _; _], _, _, _, _ ]. }
  split; [exact Hpre|]. split; [exact Hstop|].
  intros c r wp sr sw Hc Hcp Hsp.
  generalize (range_servers_fds (servers w) 0 [r; Stdout w; Stderr w; sw] ∅).
  destruct H as [cp sp fe ee [ans re]]; simpl in *; subst.
  destruct cfg as [c'|]; simpl in Hc; [injection Hc as ->|];
    run_with Hw; intros <-; by eexists _, _, _.
Qed.

Lemma Restart_step_order_witness :
  exists a0 a env,
    List.filter is_step
      (calls (Restart sample_registry answering_host None sample_world))
    = [EvForkExec a0 a {| Env := env; Files := [3; 1; 2; 6; 10; 11] |} true;
       EvEncode 4
         {| ListenerFds := (range_servers 0 sample_servers [3; 1; 2; 6] ∅).2;
            Caddyfile := Contents sample_caddyfile |}
         true;
       EvReadAll 5 [x4f; x4b] true;
       EvStop true].
Proof.
  destruct (Restart_step_order sample_registry answering_host None sample_world)
    as (_ & _ & Hsteps); [discriminate|].
  apply (Hsteps sample_caddyfile 3 4 5 6); reflexivity.
Defined.

(** ** The restart flag *)

(** C10.  A run on the graceful path sets [CADDY_RESTART] to ["true"] before
    any call that makes a pipe or a child, whatever happens afterwards; the
    environment it leaves behind is the one it found with the flag set, so
    [isRestart] answers true in the calling process. *)
Theorem Restart_sets_restart_flag R H cfg w :
  GOOS w <> "windows" ->
  isRestart (final (Restart R H cfg w)) = true /\
  environment (final (Restart R H cfg w))
  = <["CADDY_RESTART" := "true"]> (environment w) /\
  exists pre post,
    calls (Restart R H cfg w) = pre ++ EvSetenv "CADDY_RESTART" "true" :: post /\
    none creates_pipe_or_child pre = true.
Proof.
  intros Hw.
  destruct H as [cp sp fe ee [ans re]].
  run_with Hw.
  all: split; [unfold isRestart, os_Getenv; cbn; by rewrite lookup_insert_eq|].
  all: split; [done|].
  all: first [ by eexists [], _ | by eexists [_; _; _], _ ].
Qed.

Lemma Restart_sets_restart_flag_witness :
  isRestart (final (Restart sample_registry refusing_host None sample_world))
  = true /\
  environment (final (Restart sample_registry refusing_host None sample_world))
  = <["CADDY_RESTART" := "true"]> (environment sample_world) /\
  exists pre post,
    calls (Restart sample_registry refusing_host None sample_world)
    = pre ++ EvSetenv "CADDY_RESTART" "true" :: post /\
    none creates_pipe_or_child pre = true.
Proof.
  apply (Restart_sets_restart_flag sample_registry refusing_host None sample_world).
  discriminate.
Defined.

(** ** The configuration in use *)

Lemma bind_ret {A B} (a : A) (k : A -> M B) (w : World) :
  bind (ret a) k w = k a w.
Proof. unfold bind, ret. by destruct (k a w). Qed.

Lemma bind_after {A B} (m : M A) (k : A -> M B) (w w1 : World) a evs :
  m w = {| flow := Continue a; final := w1; calls := evs |} ->
  bind m k w = after evs (k a w1).
Proof. intros Hm. unfold bind, after. rewrite Hm. by destruct (k a w1). Qed.

(** C8.  Called with nil, [Restart] locks [caddyfileMu], loads [caddyfile],
    unlocks, and goes on exactly as if it had been called with the value
    loaded; called with a configuration, it neither takes that mutex nor
    loads [caddyfile].  The configuration so chosen is the one the restart
    is made with: on Windows it is the argument of [Start]; elsewhere its
    body is the [Caddyfile] of the payload written to the child, and the
    call panics when it is nil. *)
Theorem Restart_nil_uses_caddyfile R H w :
  (exists rest,
     calls (Restart R H None w)
     = [EvLock caddyfileMu; EvLoadCaddyfile; EvUnlock caddyfileMu] ++ rest /\
     none touches_caddyfile rest = true) /\
  (forall c,
     caddyfile w = Some c ->
     Restart R H None w
     = after [EvLock caddyfileMu; EvLoadCaddyfile; EvUnlock caddyfileMu]
         (Restart R H (Some c) w)) /\
  (forall c, none touches_caddyfile (calls (Restart R H (Some c) w)) = true) /\
  (forall cfg,
     (GOOS w = "windows" ->
      (stop_all R (servers w)).1 = None ->
      exists ok,
        last (calls (Restart R H cfg w)) = Some (EvStart (chosen cfg w) ok)) /\
     (GOOS w <> "windows" ->
      chosen cfg w = None ->
      flow (Restart R H cfg w) = Panic) /\
     (GOOS w <> "windows" ->
      forall c r wp sr sw,
        chosen cfg w = Some c ->
        config_pipe H = inr (r, wp) ->
        signal_pipe H = inr (sr, sw) ->
        forkexec_error H = None ->
        exists m,
          EvEncode wp {| ListenerFds := m; Caddyfile := Body c |}
            (is_nil (encode_error H))
          ∈ calls (Restart R H cfg w))).
Proof.
  split; [|split; [|split]].
  - destruct H as [cp sp fe ee [ans re]].
    destruct (decide (GOOS w = "windows")) as [Hw|Hw];
      run_with Hw; by eexists.
  - intros c Hc. unfold Restart. rewrite bind_ret.
    erewrite bind_after; [reflexivity|].
    unfold_calls. cbn. by rewrite Hc.
  - intros c. destruct H as [cp sp fe ee [ans re]].
    destruct (decide (GOOS w = "windows")) as [Hw|Hw]; by run_with Hw.
  - intros cfg. split; [|split].
    + intros Hw Hstop.
      destruct (stop_all R (servers w)) as [e l1] eqn:Hs.
      simpl in Hstop. subst e.
      destruct H as [cp sp fe ee [ans re]].
      destruct cfg as [c|]; simpl;
        [|destruct (caddyfile w) as [c|] eqn:Hc];
        run_with Hw; by eexists.
    + intros Hw Hc.
      destruct H as [cp sp fe ee [ans re]].
      destruct cfg as [c|]; simpl in Hc; [discriminate|].
      by run_with Hw.
    + intros Hw c r wp sr sw Hc Hcp Hsp Hfe.
      destruct H as [cp sp fe ee [ans re]]; simpl in *; subst.
      destruct cfg as [c'|]; simpl in Hc; [injection Hc as ->|];
        run_with Hw; eexists;
        repeat first [ apply list_elem_of_here | apply list_elem_of_further ].
Qed.

Lemma Restart_nil_uses_caddyfile_witness :
  Restart sample_registry answering_host None sample_world
  = after [EvLock caddyfileMu; EvLoadCaddyfile; EvUnlock caddyfileMu]
      (Restart sample_registry answering_host (Some (sample_caddyfile : Input))
         sample_world) /\
  (exists m,
     EvEncode 4 {| ListenerFds := m; Caddyfile := Contents sample_caddyfile |} true
     ∈ calls (Restart sample_registry answering_host None sample_world)) /\
  none touches_caddyfile
    (calls (Restart sample_registry answering_host
              (Some (other_caddyfile : Input)) sample_world)) = true /\
  (exists m,
     EvEncode 4 {| ListenerFds := m; Caddyfile := Contents other_caddyfile |} true
     ∈ calls (Restart sample_registry answering_host
                (Some (other_caddyfile : Input)) sample_world)) /\
  (exists ok,
     last (calls (Restart sample_registry answering_host None windows_world))
     = Some (EvStart (Some (sample_caddyfile : Input)) ok)).
Proof.
  destruct (Restart_nil_uses_caddyfile sample_registry answering_host
              sample_world) as (_ & Hnil & Harg & Huse).
  destruct (Restart_nil_uses_caddyfile sample_registry answering_host
              windows_world) as (_ & _ & _ & Hwin).
  split; [by apply Hnil|].
  split.
  { apply (proj2 (proj2 (Huse None)) ltac:(discriminate)
             sample_caddyfile 3 4 5 6); reflexivity. }
  split; [apply Harg|].
  split.
  { apply (proj2 (proj2 (Huse (Some (other_caddyfile : Input))))
             ltac:(discriminate) other_caddyfile 3 4 5 6); reflexivity. }
  apply (proj1 (Hwin None)); reflexivity.
Defined.

(** ** The fallback *)



(** * Further properties *)

(** ** Failures before the child exists *)

(** X1.  When the first [os.Pipe] fails, [Restart] returns its error right
    after setting the flag: no descriptor was opened, no child launched, and
    the servers are what they were. *)
Theorem Restart_config_pipe_failed R H cfg w c t :
  GOOS w <> "windows" ->
  chosen cfg w = Some c ->
  config_pipe H = inl t ->
  flow (Restart R H cfg w) = Return (Some (errorOf os_Pipe t)) /\
  calls (Restart R H cfg w)
  = chosen_calls cfg ++ [EvSetenv "CADDY_RESTART" "true"; EvPipe None] /\
  open_files (final (Restart R H cfg w)) = open_files w /\
  servers (final (Restart R H cfg w)) = servers w.
Proof.
  intros Hw Hc Hcp.
  destruct H as [cp sp fe ee ra]; simpl in *; subst.
  destruct cfg as [c'|]; simpl in Hc; [injection Hc as ->|];
    by run_with Hw.
Qed.

Lemma Restart_config_pipe_failed_witness :
  flow (Restart sample_registry pipeless_host None sample_world)
  = Return (Some (errorOf os_Pipe "pipe: too many open files")) /\
  calls (Restart sample_registry pipeless_host None sample_world)
  = [EvLock caddyfileMu; EvLoadCaddyfile; EvUnlock caddyfileMu;
     EvSetenv "CADDY_RESTART" "true"; EvPipe None] /\
  open_files (final (Restart sample_registry pipeless_host None sample_world))
  = open_files sample_world /\
  servers (final (Restart sample_registry pipeless_host None sample_world))
  = sample_servers.
Proof.
  apply (Restart_config_pipe_failed sample_registry pipeless_host None
           sample_world sample_caddyfile "pipe: too many open files");
    try reflexivity.
  discriminate.
Defined.

(** X2.  When the second [os.Pipe] fails, [Restart] returns its error at
    once: no child is launched, the servers are what they were, and the two
    descriptors of the first pipe are not closed. *)
Theorem Restart_signal_pipe_failed R H cfg w c r wp t :
  GOOS w <> "windows" ->
  chosen cfg w = Some c ->
  config_pipe H = inr (r, wp) ->
  signal_pipe H = inl t ->
  flow (Restart R H cfg w) = Return (Some (errorOf os_Pipe t)) /\
  calls (Restart R H cfg w)
  = chosen_calls cfg
    ++ [EvSetenv "CADDY_RESTART" "true"; EvPipe (Some (r, wp)); EvPipe None] /\
  open_files (final (Restart R H cfg w)) = open_files w ∪ {[r; wp]} /\
  servers (final (Restart R H cfg w)) = servers w.
Proof.
  intros Hw Hc Hcp Hsp.
  destruct H as [cp sp fe ee ra]; simpl in *; subst.
  destruct cfg as [c'|]; simpl in Hc; [injection Hc as ->|];
    by run_with Hw.
Qed.

Lemma Restart_signal_pipe_failed_witness :
  flow (Restart sample_registry one_pipe_host None sample_world)
  = Return (Some (errorOf os_Pipe "pipe: too many open files")) /\
  calls (Restart sample_registry one_pipe_host None sample_world)
  = [EvLock caddyfileMu; EvLoadCaddyfile; EvUnlock caddyfileMu;
     EvSetenv "CADDY_RESTART" "true"; EvPipe (Some (3, 4)); EvPipe None] /\
  open_files (final (Restart sample_registry one_pipe_host None sample_world))
  = open_files sample_world ∪ {[3; 4]} /\
  servers (final (Restart sample_registry one_pipe_host None sample_world))
  = sample_servers.
Proof.
  apply (Restart_signal_pipe_failed sample_registry one_pipe_host None
           sample_world sample_caddyfile 3 4 "pipe: too many open files");
    try reflexivity.
  discriminate.
Defined.

(** ** Every run *)

(** X3.  [Restart] returns nil off Windows exactly when every step went well:
    a configuration was there, both pipes were made, the child was launched,
    the payload was written, the read reported no error and handed back at
    least one byte, and [Stop] reported no error. *)
Theorem Restart_succeeds_iff R H cfg w :
  GOOS w <> "windows" ->
  flow (Restart R H cfg w) = Return None <->
  chosen cfg w <> None /\
  (exists p, config_pipe H = inr p) /\
  (exists p, signal_pipe H = inr p) /\
  forkexec_error H = None /\
  encode_error H = None /\
  (readall_answer H).2 = None /\
  (readall_answer H).1 <> [] /\
  (stop_all R (servers w)).1 = None.
Proof.
  intros Hw.
  destruct H as [cp sp fe ee [ans re]].
  destruct cfg as [c|]; simpl; [|destruct (caddyfile w) as [c|] eqn:Hc];
    run_with Hw; (split; [intros Hflow; try discriminate | intros Hall]).
  all: try (repeat split; by eauto).
  all: destruct Hall as (Hc' & [p1 Hp1] & [p2 Hp2] & Hfe & Hee & Hre & Hans & Hst);
    by simpl in *.
Qed.

Lemma Restart_succeeds_iff_witness :
  flow (Restart sample_registry answering_host None sample_world) = Return None <->
  chosen None sample_world <> None /\
  (exists p, config_pipe answering_host = inr p) /\
  (exists p, signal_pipe answering_host = inr p) /\
  forkexec_error answering_host = None /\
  encode_error answering_host = None /\
  (readall_answer answering_host).2 = None /\
  (readall_answer answering_host).1 <> [] /\
  (stop_all sample_registry (servers sample_world)).1 = None.
Proof.
  apply (Restart_succeeds_iff sample_registry answering_host None sample_world).
  discriminate.
Defined.

(** X4.  [Restart] returns [incompleteRestartErr] exactly when its last call
    is the log line about the child that failed to answer. *)
Theorem incomplete_restart_iff_logged R H cfg w :
  flow (Restart R H cfg w) = Return (Some incompleteRestartErr) <->
  last (calls (Restart R H cfg w))
  = Some (EvLog "restart: child failed to answer; changes not applied").
Proof.
  destruct H as [cp sp fe ee [ans re]].
  destruct (decide (GOOS w = "windows")) as [Hw|Hw];
    run_with Hw; split; done.
Qed.

(** X5.  Off Windows, a run that neither returns nil nor returns an error of
    [Stop] made no call of [Stop] and left the registered servers as they
    were; no run off Windows calls [Start]. *)
Theorem Restart_failure_keeps_servers R H cfg w :
  GOOS w <> "windows" ->
  none is_Start (calls (Restart R H cfg w)) = true /\
  (flow (Restart R H cfg w) <> Return None ->
   (forall t, flow (Restart R H cfg w) <> Return (Some (errorOf caddy_Stop t))) ->
   none is_Stop (calls (Restart R H cfg w)) = true /\
   servers (final (Restart R H cfg w)) = servers w).
Proof.
  intros Hw.
  destruct H as [cp sp fe ee [ans re]].
  run_with Hw; (split; [done|]); intros Hnil Hstop; try done.
  all: exfalso; first [ by apply Hnil | by eapply Hstop ].
Qed.

Lemma Restart_failure_keeps_servers_witness :
  none is_Start (calls (Restart sample_registry silent_host None sample_world))
  = true /\
  none is_Stop (calls (Restart sample_registry silent_host None sample_world))
  = true /\
  servers (final (Restart sample_registry silent_host None sample_world))
  = sample_servers.
Proof.
  destruct (Restart_failure_keeps_servers sample_registry silent_host None
              sample_world) as [Hstart Hkeep]; [discriminate|].
  split; [exact Hstart|].
  apply Hkeep; [discriminate|]. intros t. discriminate.
Defined.

(** X6.  On Windows [Restart] makes no call to the operating system: it sets
    no environment variable, makes no pipe, launches no child, and writes,
    closes, reads and logs nothing. *)
Theorem Restart_fallback_makes_no_host_call R H cfg w :
  GOOS w = "windows" ->
  none is_host_call (calls (Restart R H cfg w)) = true.
Proof.
  intros Hw.
  destruct H as [cp sp fe ee [ans re]].
  by run_with Hw.
Qed.

Lemma Restart_fallback_makes_no_host_call_witness :
  none is_host_call
    (calls (Restart sample_registry answering_host None windows_world)) = true.
Proof.
  apply (Restart_fallback_makes_no_host_call sample_registry answering_host
           None windows_world).
  reflexivity.
Defined.

(** X7.  Every run of [Restart] keeps the locking discipline: each mutex it
    locks it unlocks again, [caddyfile] is loaded under [caddyfileMu], and
    every other call (pipes, launch, write, read, [Stop], [Start]) is made
    with no mutex held. *)
Theorem Restart_well_locked R H cfg w :
  well_locked None (calls (Restart R H cfg w)) = true.
Proof.
  destruct H as [cp sp fe ee [ans re]].
  destruct (decide (GOOS w = "windows")) as [Hw|Hw]; by run_with Hw.
Qed.

(** ** What the child is started with *)

Lemma environ_entry (env : gmap string string) k v :
  env !! k = Some v ->
  String.append k (String.append "=" v)
  ∈ (fun kv : string * string =>
       String.append kv.1 (String.append "=" kv.2)) <$> map_to_list env.
Proof.
  intros Hk. apply list_elem_of_fmap. exists (k, v). split; [done|].
  by apply elem_of_map_to_list.
Qed.

(** X8.  Whenever [Restart] launches a child, the argument vector is
    [os.Args], or the one-element vector of the empty string when [os.Args]
    was empty; the program is its first element; the environment handed over
    contains [CADDY_RESTART=true] and every other variable of the caller. *)
Theorem child_launch_arguments R H cfg w a0 a attr :
  launched (calls (Restart R H cfg w)) = Some (a0, a, attr) ->
  a = match Args w with [] => [""] | _ => Args w end /\
  head a = Some a0 /\
  "CADDY_RESTART=true" ∈ Env attr /\
  forall k v,
    k <> "CADDY_RESTART" ->
    environment w !! k = Some v ->
    String.append k (String.append "=" v) ∈ Env attr.
Proof.
  destruct H as [cp sp fe ee [ans re]].
  destruct (decide (GOOS w = "windows")) as [Hw|Hw];
    run_with Hw; intros Hl; try discriminate.
  all: injection Hl as <- <- <-; cbn.
  all: split; [done|]; split; [done|]; split.
  all: try (apply (environ_entry _ "CADDY_RESTART" "true"), lookup_insert_eq).
  all: intros k v Hk Hv; apply environ_entry; by rewrite lookup_insert_ne.
Qed.

Lemma child_launch_arguments_witness :
  exists a0 a attr,
    launched (calls (Restart sample_registry answering_host None restarted_world))
    = Some (a0, a, attr) /\
    a = [""] /\
    head a = Some a0 /\
    "CADDY_RESTART=true" ∈ Env attr.
Proof.
  eexists _, _, _. split; [reflexivity|].
  destruct (child_launch_arguments sample_registry answering_host None
              restarted_world _ _ _ eq_refl) as (Ha & Hhd & Henv & _).
  split; [exact Ha|]. split; [exact Hhd|]. exact Henv.
Defined.

(** X9.  Once the child is launched, the value given to the encoder carries
    the body of the configuration in use, and it is written to the write end
    of the config pipe. *)
Theorem payload_carries_configuration R H cfg w c r wp sr sw :
  GOOS w <> "windows" ->
  chosen cfg w = Some c ->
  config_pipe H = inr (r, wp) ->
  signal_pipe H = inr (sr, sw) ->
  forkexec_error H = None ->
  exists m,
    EvEncode wp {| ListenerFds := m; Caddyfile := Body c |}
      (is_nil (encode_error H))
    ∈ calls (Restart R H cfg w).
Proof.
  intros Hw Hc Hcp Hsp Hfe.
  destruct H as [cp sp fe ee [ans re]]; simpl in *; subst.
  destruct cfg as [c'|]; simpl in Hc; [injection Hc as ->|];
    run_with Hw; eexists;
    repeat first [ apply list_elem_of_here | apply list_elem_of_further ].
Qed.

Lemma payload_carries_configuration_witness :
  exists m,
    EvEncode 4 {| ListenerFds := m; Caddyfile := Contents sample_caddyfile |} true
    ∈ calls (Restart sample_registry answering_host None sample_world).
Proof.
  apply (payload_carries_configuration sample_registry answering_host None
           sample_world sample_caddyfile 3 4 5 6);
    try reflexivity.
  discriminate.
Defined.

(** ** The mapping, for any registry *)

(** X10.  Once the child is launched, the keys of the mapping are exactly
    the addresses of the registered servers, whatever the registry: every
    registered address has an entry, and an empty registry gives an empty
    mapping. *)
Theorem mapping_keys R H cfg w c r wp sr sw :
  GOOS w <> "windows" ->
  chosen cfg w = Some c ->
  config_pipe H = inr (r, wp) ->
  signal_pipe H = inr (sr, sw) ->
  forkexec_error H = None ->
  exists payload,
    sent_payload (calls (Restart R H cfg w)) = Some payload /\
    dom (ListenerFds payload) = (list_to_set (Addr <$> servers w) : gset string) /\
    (servers w = [] -> ListenerFds payload = ∅).
Proof.
  intros Hw Hc Hcp Hsp Hfe.
  destruct (launched_table R H cfg w c r wp sr sw) as [_ Hp]; try done.
  eexists. split; [exact Hp|]. simpl. split.
  - by rewrite range_servers_dom, dom_empty_L, (left_id_L ∅ (∪)).
  - by intros ->.
Qed.

Lemma mapping_keys_witness :
  exists payload,
    sent_payload
      (calls (Restart sample_registry answering_host None shared_address_world))
    = Some payload /\
    dom (ListenerFds payload) = ({[":80"]} : gset string).
Proof.
  destruct (mapping_keys sample_registry answering_host None
              shared_address_world sample_caddyfile 3 4 5 6)
    as (payload & Hp & Hdom & _); try reflexivity; [discriminate|].
  exists payload. split; [exact Hp|].
  rewrite Hdom. simpl.
  by rewrite (right_id_L ∅ (∪)), (idemp_L (∪)).
Defined.

(** X11.  Once the child is launched, every entry of the mapping points into
    the descriptor list at a descriptor of a server registered under the
    entry's address, whatever the registry (the indices fitting an [int]):
    an entry [a ↦ k] has [k = 4 + j] for a server at index [j] with address
    [a], and position [k] of the list holds that server's descriptor. *)
Theorem mapping_points_into_table R H cfg w c r wp sr sw :
  GOOS w <> "windows" ->
  chosen cfg w = Some c ->
  config_pipe H = inr (r, wp) ->
  signal_pipe H = inr (sr, sw) ->
  forkexec_error H = None ->
  Z.of_nat (length (servers w)) + 4 <= 2 ^ 63 ->
  exists files payload,
    handed_files (calls (Restart R H cfg w)) = Some files /\
    sent_payload (calls (Restart R H cfg w)) = Some payload /\
    forall a k,
      ListenerFds payload !! a = Some k ->
      exists (j : nat) s,
        k = 4 + Z.of_nat j /\
        servers w !! j = Some s /\
        Addr s = a /\
        files !! (4 + j)%nat = Some (ListenerFd s).
Proof.
  intros Hw Hc Hcp Hsp Hfe Hlen.
  destruct (launched_table R H cfg w c r wp sr sw) as [Hf Hp]; try done.
  eexists _, _. split; [exact Hf|]. split; [exact Hp|].
  intros a k Hk. simpl in Hk.
  apply range_servers_entry in Hk as [[Hm _]|(j & s & Hj & Ha & ->)].
  - by rewrite lookup_empty in Hm.
  - exists j, s. split.
    + apply (registry_offset (servers w)); [|done]. by apply lookup_lt_Some in Hj.
    + split; [done|]. split; [done|].
      rewrite range_servers_fds. simpl. by rewrite list_lookup_fmap, Hj.
Qed.

Lemma mapping_points_into_table_witness :
  exists files payload,
    handed_files
      (calls (Restart sample_registry answering_host None shared_address_world))
    = Some files /\
    sent_payload
      (calls (Restart sample_registry answering_host None shared_address_world))
    = Some payload /\
    forall a k,
      ListenerFds payload !! a = Some k ->
      exists (j : nat) s,
        k = 4 + Z.of_nat j /\
        servers shared_address_world !! j = Some s /\
        Addr s = a /\
        files !! (4 + j)%nat = Some (ListenerFd s).
Proof.
  apply (mapping_points_into_table sample_registry answering_host None
           shared_address_world sample_caddyfile 3 4 5 6);
    try reflexivity.
  - discriminate.
  - vm_compute. discriminate.
Defined.

(** ** The pipes around the read *)

(** X12.  A run that gets to read the signal pipe has closed, before the
    read and in this order, the write end of the config pipe and its own
    copy of the write end of the signal pipe; it closes nothing else, so the
    two read ends are never closed by [Restart]. *)
Theorem write_ends_closed_before_read R H cfg w c r wp sr sw ans re :
  GOOS w <> "windows" ->
  chosen cfg w = Some c ->
  config_pipe H = inr (r, wp) ->
  signal_pipe H = inr (sr, sw) ->
  forkexec_error H = None ->
  encode_error H = None ->
  readall_answer H = (ans, re) ->
  closed (calls (Restart R H cfg w)) = [wp; sw] /\
  exists pre post,
    calls (Restart R H cfg w) = pre ++ EvReadAll sr ans (is_nil re) :: post /\
    closed pre = [wp; sw] /\
    none is_ReadAll pre = true.
Proof.
  intros Hw Hc Hcp Hsp Hfe Hee Hra.
  destruct H as [cp sp fe ee ra]; simpl in *; subst.
  destruct cfg as [c'|]; simpl in Hc; [injection Hc as ->|];
    run_with Hw; (split; [done|]).
  all: first [ by eexists [_; _; _; _; _; _; _; _; _], _
             | by eexists [_; _; _; _; _; _; _; _; _; _; _; _], _ ].
Qed.

Lemma write_ends_closed_before_read_witness :
  closed (calls (Restart sample_registry silent_host None sample_world)) = [4; 6] /\
  exists pre post,
    calls (Restart sample_registry silent_host None sample_world)
    = pre ++ EvReadAll 5 [] true :: post /\
    closed pre = [4; 6] /\
    none is_ReadAll pre = true.
Proof.
  apply (write_ends_closed_before_read sample_registry silent_host None
           sample_world sample_caddyfile 3 4 5 6 [] None);
    try reflexivity.
  discriminate.
Defined.

(** ** The flag *)

(** X13.  [isRestart] answers true exactly when [CADDY_RESTART] is set to
    the string [true]; unset, or set to anything else, it answers false. *)
Theorem isRestart_iff (w : World) :
  isRestart w = true <-> environment w !! "CADDY_RESTART" = Some "true".
Proof.
  unfold isRestart, os_Getenv. rewrite String.eqb_eq.
  destruct (environment w !! "CADDY_RESTART") as [v|]; simpl.
  - split; congruence.
  - split; discriminate.
Qed.

(** X14.  In a process that was itself started by a restart, so that the
    flag is already set, a run off Windows leaves the environment exactly as
    it found it. *)
Theorem Restart_again_keeps_environment R H cfg w :
  GOOS w <> "windows" ->
  isRestart w = true ->
  environment (final (Restart R H cfg w)) = environment w.
Proof.
  intros Hw Hflag.
  assert (environment w !! "CADDY_RESTART" = Some "true") as Hset.
  { unfold isRestart, os_Getenv in Hflag. apply String.eqb_eq in Hflag.
    destruct (environment w !! "CADDY_RESTART"); simpl in Hflag;
      [by subst|discriminate]. }
  destruct H as [cp sp fe ee [ans re]].
  run_with Hw; by apply insert_id.
Qed.

Lemma Restart_again_keeps_environment_witness :
  environment (final (Restart sample_registry answering_host None restarted_world))
  = environment restarted_world.
Proof.
  apply (Restart_again_keeps_environment sample_registry answering_host None
           restarted_world).
  - discriminate.
  - reflexivity.
Defined.

(** ** Addresses registered more than once *)

Lemma range_servers_last (l : list Server) : forall i fds (m : gmap string Z) (j : nat) s,
  l !! j = Some s ->
  (forall (j' : nat) s', (j < j')%nat -> l !! j' = Some s' -> Addr s' <> Addr s) ->
  (range_servers i l fds m).2 !! Addr s
  = Some (uintptr_of_int (int_add 4 (i + Z.of_nat j))).
Proof.
  induction l as [|s0 l IH]; intros i fds m j s Hj Hlast; [done|].
  destruct j as [|j]; simpl in *.
  - injection Hj as ->.
    rewrite range_servers_absent, lookup_insert_eq; [by rewrite Z.add_0_r|].
    intros Hin. apply list_elem_of_fmap in Hin as (s' & Heq & Hs').
    apply list_elem_of_lookup in Hs' as [j' Hj'].
    by apply (Hlast (S j') s'); [lia| |].
  - rewrite (IH _ _ _ j s); [do 3 f_equal; lia|done|].
    intros j' s' Hlt Hj'. apply (Hlast (S j') s'); [lia|done].
Qed.

(** X15.  Once the child is launched, a server after which no server with
    the same address is registered has its address mapped to its own
    position [4 + j] (the indices fitting an [int]): of several servers
    registered under one address, the last one gets the entry. *)
Theorem last_registered_gets_entry R H cfg w c r wp sr sw (j : nat) s :
  GOOS w <> "windows" ->
  chosen cfg w = Some c ->
  config_pipe H = inr (r, wp) ->
  signal_pipe H = inr (sr, sw) ->
  forkexec_error H = None ->
  Z.of_nat (length (servers w)) + 4 <= 2 ^ 63 ->
  servers w !! j = Some s ->
  (forall (j' : nat) s',
     (j < j')%nat -> servers w !! j' = Some s' -> Addr s' <> Addr s) ->
  exists payload,
    sent_payload (calls (Restart R H cfg w)) = Some payload /\
    ListenerFds payload !! Addr s = Some (4 + Z.of_nat j).
Proof.
  intros Hw Hc Hcp Hsp Hfe Hlen Hj Hlast.
  destruct (launched_table R H cfg w c r wp sr sw) as [_ Hp]; try done.
  eexists. split; [exact Hp|]. simpl.
  rewrite (range_servers_last _ _ _ _ j s) by done.
  f_equal. apply (registry_offset (servers w)); [|done].
  by apply lookup_lt_Some in Hj.
Qed.

Lemma last_registered_gets_entry_witness :
  exists payload,
    sent_payload
      (calls (Restart sample_registry answering_host None shared_address_world))
    = Some payload /\
    ListenerFds payload !! ":80" = Some 5.
Proof.
  apply (last_registered_gets_entry sample_registry answering_host None
           shared_address_world sample_caddyfile 3 4 5 6 1%nat
           {| Addr := ":80"; listener := 11; serving := true |});
    try reflexivity.
  - discriminate.
  - vm_compute. discriminate.
  - intros [|[|j']] s' Hlt Hj'; [lia|lia|discriminate].
Defined.

(** ** What a run leaves behind *)

(** X16.  Off Windows, every run leaves [os.Args] non-empty: an empty
    argument vector has been replaced by the one-element vector of the empty
    string, any other is kept. *)
Theorem Restart_repairs_Args R H cfg w :
  GOOS w <> "windows" ->
  Args (final (Restart R H cfg w))
  = match Args w with [] => [""] | _ => Args w end.
Proof.
  intros Hw.
  cut (forall rn, Restart R H cfg w = rn ->
                  Args (final rn) = match Args w with [] => [""] | _ => Args w end);
    [intros Hrn; by apply Hrn|].
  destruct H as [cp sp fe ee [ans re]].
  run_with Hw; by intros rn <-.
Qed.

Lemma Restart_repairs_Args_witness :
  Args (final (Restart sample_registry pipeless_host None restarted_world)) = [""].
Proof.
  apply (Restart_repairs_Args sample_registry pipeless_host None restarted_world).
  discriminate.
Defined.

(** ** Witnesses of the equivalences *)

Lemma incomplete_restart_iff_logged_witness :
  flow (Restart sample_registry silent_host None sample_world)
  = Return (Some incompleteRestartErr).
Proof.
  apply (incomplete_restart_iff_logged sample_registry silent_host None
           sample_world).
  reflexivity.
Defined.

Lemma isRestart_iff_witness : isRestart restarted_world = true.
Proof. apply (isRestart_iff restarted_world). reflexivity. Defined.

Lemma Restart_panics_without_configuration_witness :
  flow (Restart sample_registry answering_host None unconfigured_world) = Panic /\
  calls (Restart sample_registry answering_host None unconfigured_world)
  = [EvLock caddyfileMu; EvLoadCaddyfile; EvUnlock caddyfileMu;
     EvSetenv "CADDY_RESTART" "true"] /\
  isRestart (final (Restart sample_registry answering_host None unconfigured_world))
  = true.
Proof.
  apply (Restart_panics_without_configuration sample_registry answering_host
           None unconfigured_world).
  - discriminate.
  - reflexivity.
Defined.
